(** * btyd: likelihood aggregation, package initialisation and the data
    preparation of the test-suite

    The repository ships the package initialiser [btyd/__init__.py] and the
    estimation test-suite [tests/test_estimation.py]; the fitter classes the
    tests exercise live in [btyd/fitters], which is not part of the sources
    at hand.  Each part of this development says which of the two files it
    embeds, and which definitions stand for the absent fitter code. *)

From Stdlib Require Import QArith Qcanon Qround Lqa ZArith Lia List.
From stdpp Require Import gmap strings list fin_maps sorting.
Import ListNotations.

(** ** Aggregate negative log-likelihood *)

Module Likelihood.

Local Open Scope Q_scope.

(** The six models of the package, by the fitter class that
    [btyd/__init__.py] imports for each (lines 4 to 9): BG/NBD, BG/BB,
    Modified BG/NBD, Pareto/NBD, Gamma-Gamma and BG/NBD with covariates. *)
Inductive fitter : Type :=
  | BetaGeoFitter
  | BetaGeoBetaBinomFitter
  | ModifiedBetaGeoFitter
  | ParetoNBDFitter
  | GammaGammaFitter
  | BetaGeoCovarsFitter.

(** One summary observation: the statistics of a subject, the optional
    monetary value and covariate rows, and the weight of the row. *)
Record observation : Type := Observation {
  frequency : Q;
  recency : Q;
  T : Q;
  monetary_value : option Q;
  X_tr : list Q;
  X_do : list Q;
  weight : Q
}.

Definition Qsum (l : list Q) : Q := fold_right Qplus 0 l.

Section NegativeLogLikelihood.

(** The per-subject negative log-likelihood of each model at a parameter
    vector.  Its closed form is part of [btyd/fitters]; everything below is
    proved for an arbitrary one. *)
Variable contribution : fitter -> list Q -> observation -> Q.

Definition weighted_contributions
    (k : fitter) (params : list Q) (batch : list observation) : Q :=
  Qsum (map (fun o => weight o * contribution k params o) batch).

(** Weights are multiplicities, so the subject count of a batch is the sum
    of its weights. *)
Definition subject_count (batch : list observation) : Q :=
  Qsum (map weight batch).

Definition l2_penalty (penalizer_coef : Q) (params : list Q) : Q :=
  penalizer_coef * Qsum (map (fun p => p * p) params).

(** Modelled from the spec: the body of [_negative_log_likelihood] is
    missing from the sources.  This is the value the specification words
    describe, for every model alike: "the weighted sum (not simple mean) of
    per-subject negative log-likelihood contributions, plus an L2 penalty
    penalizer * sum(params^2) scaled by subject count". *)
Definition negative_log_likelihood
    (k : fitter) (params : list Q) (batch : list observation)
    (penalizer_coef : Q) : Q :=
  weighted_contributions k params batch
  + l2_penalty penalizer_coef params * subject_count batch.

End NegativeLogLikelihood.

(** *** Sums over concatenated and rearranged batches *)

Lemma Qsum_app (l1 l2 : list Q) : Qsum (l1 ++ l2) == Qsum l1 + Qsum l2.
Proof.
  induction l1 as [|x l1 IH]; simpl.
  - ring.
  - rewrite IH. ring.
Qed.


Lemma weighted_contributions_app contribution k params b1 b2 :
  weighted_contributions contribution k params (b1 ++ b2)
  == weighted_contributions contribution k params b1
     + weighted_contributions contribution k params b2.
Proof. unfold weighted_contributions. rewrite map_app. apply Qsum_app. Qed.

Lemma subject_count_app b1 b2 :
  subject_count (b1 ++ b2) == subject_count b1 + subject_count b2.
Proof. unfold subject_count. rewrite map_app. apply Qsum_app. Qed.

Lemma negative_log_likelihood_app contribution k params b1 b2 c :
  negative_log_likelihood contribution k params (b1 ++ b2) c
  == negative_log_likelihood contribution k params b1 c
     + negative_log_likelihood contribution k params b2 c.
Proof.
  unfold negative_log_likelihood.
  rewrite weighted_contributions_app, subject_count_app. ring.
Qed.


(** The two subjects of
    [test_sum_of_scalar_inputs_to_negative_log_likelihood_is_equal_to_array]:
    [x = [1, 3]], [t_x = [2, 2]], [t = [5, 6]], unit weights. *)
Definition subject_0 : observation := Observation 1 2 5 None [] [] 1.
Definition subject_1 : observation := Observation 3 2 6 None [] [] 1.

(** The assertion of [TestParetoNBDFitter] (lines 402 to 425): the two
    scalar calls add up to the array call. *)
Lemma pareto_test_assertion contribution params :
  negative_log_likelihood contribution ParetoNBDFitter params [subject_0] 0
  + negative_log_likelihood contribution ParetoNBDFitter params [subject_1] 0
  == negative_log_likelihood contribution ParetoNBDFitter params
       [subject_0; subject_1] 0.
Proof.
  rewrite <- negative_log_likelihood_app. reflexivity.
Qed.



End Likelihood.

(** ** Package initialisation: [btyd/__init__.py] *)

Module PackageInit.

Local Open Scope string_scope.
Local Open Scope list_scope.

(** The built-in warning categories; all of them derive directly from
    [Warning]. *)
Inductive category : Type :=
  | Warning
  | UserWarning
  | DeprecationWarning
  | PendingDeprecationWarning
  | SyntaxWarning
  | RuntimeWarning
  | FutureWarning
  | ImportWarning
  | UnicodeWarning
  | BytesWarning
  | ResourceWarning.

#[global] Instance category_eq_dec : EqDecision category.
Proof. solve_decision. Defined.

Definition issubclass (c cat : category) : bool :=
  match cat with
  | Warning => true
  | _ => bool_decide (c = cat)
  end.

(** The actions of a warnings filter: "error", "ignore", "always",
    "default", "module" and "once". *)
Inductive action : Type :=
  | ActError
  | ActIgnore
  | ActAlways
  | ActDefault
  | ActModule
  | ActOnce.

(** An entry of [warnings.filters]: (action, message, category, module,
    lineno).  The two compiled patterns are kept as their [match]
    predicates, [None] for "matches everything"; line 0 matches every
    line. *)
Record filter : Type := Filter {
  filter_action : action;
  filter_message : option (string -> bool);
  filter_category : category;
  filter_module : option (string -> bool);
  filter_lineno : nat
}.

(** A warning as [warn_explicit] sees it: text, category, and the module and
    line it is attributed to. *)
Record warning : Type := WarningAt {
  text : string;
  warning_category : category;
  module_name : string;
  lineno : nat
}.

#[global] Instance warning_eq_dec : EqDecision warning.
Proof. solve_decision. Defined.

(** The interpreter state the module body reads and writes.  [registry] is
    the [__warningregistry__] of the module being executed; [warn_calls]
    records every call of [warnings.warn], whatever the filters make of
    it; [shown] is what reached [showwarning]. *)
Record interpreter : Type := Interpreter {
  sys_modules : gset string;
  filters : list filter;
  defaultaction : action;
  onceregistry : list (string * category);
  registry : list (string * category * nat);
  warn_calls : list warning;
  shown : list warning
}.

(** A statement either completes or raises; the exceptions that matter here
    are instances of a warning category, raised with their message.  Both
    outcomes carry the interpreter state. *)
Inductive result : Type :=
  | Ok (st : interpreter)
  | Raise (exc : category) (message : string) (st : interpreter).

Definition bind (r : result) (k : interpreter -> result) : result :=
  match r with
  | Ok st => k st
  | Raise c m st => Raise c m st
  end.

Notation "r >>> k" := (bind r k) (at level 60, right associativity).

Definition pattern_matches (p : option (string -> bool)) (s : string) : bool :=
  match p with
  | None => true
  | Some m => m s
  end.

Definition filter_applies (f : filter) (w : warning) : bool :=
  pattern_matches (filter_message f) (text w)
  && issubclass (warning_category w) (filter_category f)
  && pattern_matches (filter_module f) (module_name w)
  && ((filter_lineno f =? 0)%nat || (lineno w =? filter_lineno f)%nat).

(** The [for item in filters: ... break / else: action = defaultaction]
    loop of [warn_explicit]. *)
Fixpoint search_filters (fs : list filter) (dflt : action) (w : warning)
  : action :=
  match fs with
  | [] => dflt
  | f :: fs' =>
      if filter_applies f w then filter_action f
      else search_filters fs' dflt w
  end.

Definition with_call (w : warning) (st : interpreter) : interpreter :=
  Interpreter (sys_modules st) (filters st) (defaultaction st)
    (onceregistry st) (registry st) (warn_calls st ++ [w]) (shown st).

Definition with_registry (keys : list (string * category * nat))
    (st : interpreter) : interpreter :=
  Interpreter (sys_modules st) (filters st) (defaultaction st)
    (onceregistry st) (keys ++ registry st) (warn_calls st) (shown st).

Definition with_once (key : string * category) (st : interpreter)
  : interpreter :=
  Interpreter (sys_modules st) (filters st) (defaultaction st)
    (key :: onceregistry st) (registry st) (warn_calls st) (shown st).

Definition showwarning (w : warning) (st : interpreter) : interpreter :=
  Interpreter (sys_modules st) (filters st) (defaultaction st)
    (onceregistry st) (registry st) (warn_calls st) (shown st ++ [w]).

(** [warnings.warn(message, category)] with the default [stacklevel]: the
    warning is attributed to the calling module and line, then handled by
    [warn_explicit]. *)
Definition warn (w : warning) (st0 : interpreter) : result :=
  let st := with_call w st0 in
  let key := (text w, warning_category w, lineno w) in
  let altkey := (text w, warning_category w, 0%nat) in
  let oncekey := (text w, warning_category w) in
  if bool_decide (key ∈ registry st) then Ok st
  else
    match search_filters (filters st) (defaultaction st) w with
    | ActIgnore => Ok st
    | ActError => Raise (warning_category w) (text w) st
    | ActOnce =>
        let st1 := with_registry [key] st in
        if bool_decide (oncekey ∈ onceregistry st1) then Ok st1
        else Ok (showwarning w (with_once oncekey st1))
    | ActAlways => Ok (showwarning w st)
    | ActModule =>
        let st1 := with_registry [key] st in
        if bool_decide (altkey ∈ registry st1) then Ok st1
        else Ok (showwarning w (with_registry [altkey] st1))
    | ActDefault => Ok (showwarning w (with_registry [key] st))
    end.

(** The message of [deprecated()], and the warning its [warnings.warn] call
    on line 29 of [btyd/__init__.py] issues. *)
Definition deprecation_message : string :=
  "All Fitter models are deprecated and will be removed in the final stage of Beta development.".

Definition deprecation : warning :=
  WarningAt deprecation_message DeprecationWarning "btyd" 29.

Definition deprecated (st : interpreter) : result := warn deprecation st.

(** No statement of the module body before line 31 warns from module
    [btyd], whose globals are created by the import: its
    [__warningregistry__] is still empty when [deprecated()] runs. *)
Definition fresh_globals (st : interpreter) : interpreter :=
  Interpreter (sys_modules st) (filters st) (defaultaction st)
    (onceregistry st) [] (warn_calls st) (shown st).

Definition register_module (name : string) (st : interpreter) : interpreter :=
  Interpreter ({[name]} ∪ sys_modules st) (filters st) (defaultaction st)
    (onceregistry st) (registry st) (warn_calls st) (shown st).

Definition unregister_module (name : string) (st : interpreter)
  : interpreter :=
  Interpreter (sys_modules st ∖ {[name]}) (filters st) (defaultaction st)
    (onceregistry st) (registry st) (warn_calls st) (shown st).

Section ModuleBody.

(** Lines 3 to 12: the ten [from .fitters ... import] and
    [from .models ... import] statements.  These modules are not among the
    sources, so their effect on the interpreter is a parameter. *)
Variable import_submodules : interpreter -> result.

(** The body of [btyd/__init__.py]: the imports, the bindings of
    [__version__] and [__all__] and the [def] (which neither warn nor
    raise), then the call [deprecated()] on line 31. *)
Definition module_body (st : interpreter) : result :=
  import_submodules st >>> fun st1 =>
  deprecated (fresh_globals st1).

(** [import btyd]: a module found in [sys.modules] is not executed again;
    a module whose body raises is taken out of [sys.modules]. *)
Definition import_btyd (st : interpreter) : result :=
  if bool_decide ("btyd" ∈ sys_modules st) then Ok st
  else
    match module_body (register_module "btyd" st) with
    | Ok st' => Ok st'
    | Raise c m st' => Raise c m (unregister_module "btyd" st')
    end.

End ModuleBody.

(** The filters of a default interpreter:
    [default::DeprecationWarning:__main__], then [ignore] for
    [DeprecationWarning], [PendingDeprecationWarning], [ImportWarning] and
    [ResourceWarning]. *)
Definition default_filters : list filter :=
  [ Filter ActDefault None DeprecationWarning
      (Some (String.eqb "__main__")) 0;
    Filter ActIgnore None DeprecationWarning None 0;
    Filter ActIgnore None PendingDeprecationWarning None 0;
    Filter ActIgnore None ImportWarning None 0;
    Filter ActIgnore None ResourceWarning None 0 ].

(** A fresh interpreter started with the given [-W] filters in front of the
    default ones. *)
Definition python (option_W : list filter) : interpreter :=
  Interpreter ∅ (option_W ++ default_filters) ActDefault [] [] [] [].

(** [python -W error]. *)
Definition W_error : list filter := [Filter ActError None Warning None 0].

(** The action the filters in force pick for the deprecation warning. *)
Definition deprecation_action (st : interpreter) : action :=
  search_filters (filters st) (defaultaction st) deprecation.

Lemma import_btyd_first import_submodules st :
  "btyd" ∉ sys_modules st ->
  import_btyd import_submodules st
  = match module_body import_submodules (register_module "btyd" st) with
    | Ok st' => Ok st'
    | Raise c m st' => Raise c m (unregister_module "btyd" st')
    end.
Proof.
  intros Hnew. unfold import_btyd.
  rewrite bool_decide_eq_false_2 by exact Hnew. reflexivity.
Qed.

Lemma deprecated_fresh st :
  deprecated (fresh_globals st)
  = let st1 := with_call deprecation (fresh_globals st) in
    match deprecation_action st with
    | ActIgnore => Ok st1
    | ActError => Raise DeprecationWarning deprecation_message st1
    | ActOnce =>
        if bool_decide
             ((deprecation_message, DeprecationWarning) ∈ onceregistry st)
        then Ok (with_registry
                   [(deprecation_message, DeprecationWarning, 29%nat)] st1)
        else Ok (showwarning deprecation
                   (with_once (deprecation_message, DeprecationWarning)
                      (with_registry
                         [(deprecation_message, DeprecationWarning, 29%nat)]
                         st1)))
    | ActAlways => Ok (showwarning deprecation st1)
    | ActModule =>
        Ok (showwarning deprecation
              (with_registry
                 [(deprecation_message, DeprecationWarning, 0%nat)]
                 (with_registry
                    [(deprecation_message, DeprecationWarning, 29%nat)]
                    st1)))
    | ActDefault =>
        Ok (showwarning deprecation
              (with_registry
                 [(deprecation_message, DeprecationWarning, 29%nat)] st1))
    end.
Proof.
  destruct st as [mods fs dflt once reg calls disp].
  unfold deprecated, warn, deprecation_action.
  cbn [registry filters defaultaction onceregistry with_call fresh_globals
       with_registry text warning_category lineno deprecation app].
  rewrite bool_decide_eq_false_2 by apply not_elem_of_nil.
  destruct (search_filters fs dflt _); reflexivity.
Qed.

(** Closes a goal [exists st2, calls /\ shown /\ outcome = r st2] when the
    outcome on the left already is [r] applied to a state. *)
Ltac final_state :=
  eexists; split; [| split; [| reflexivity]]; cbn; auto.

(** C10, as stated, fails under [python -W error]: the submodule imports
    complete, and the import of [btyd] raises the [DeprecationWarning]. *)
Lemma import_btyd_raises_under_W_error :
  exists st,
    import_btyd Ok (python W_error)
    = Raise DeprecationWarning deprecation_message st.
Proof. eexists. vm_compute. reflexivity. Qed.

(** C10 (amended): the first import of [btyd] in an interpreter, once its
    submodule imports have completed, calls [warnings.warn] exactly once,
    with the deprecation message and category [DeprecationWarning]; the
    warning is shown at most once.  Whether the import raises is decided by
    the warnings filter in force: under an "error" filter it raises that
    [DeprecationWarning], under every other action it returns normally. *)
Theorem import_btyd_warns_once
    (import_submodules : interpreter -> result) (st st1 : interpreter) :
  "btyd" ∉ sys_modules st ->
  import_submodules (register_module "btyd" st) = Ok st1 ->
  exists st2,
    warn_calls st2 = warn_calls st1 ++ [deprecation]
    /\ (shown st2 = shown st1 \/ shown st2 = shown st1 ++ [deprecation])
    /\ import_btyd import_submodules st
       = match deprecation_action st1 with
         | ActError => Raise DeprecationWarning deprecation_message st2
         | _ => Ok st2
         end.
Proof.
  intros Hnew Hsub.
  rewrite (import_btyd_first _ _ Hnew). unfold module_body.
  rewrite Hsub. cbn [bind]. rewrite deprecated_fresh. cbv zeta.
  destruct (deprecation_action st1); try destruct (bool_decide _);
    final_state.
Qed.

(** The action picked in a default interpreter and under [-W error]. *)
Example default_interpreter_ignores :
  deprecation_action (python []) = ActIgnore.
Proof. reflexivity. Qed.

Example W_error_raises : deprecation_action (python W_error) = ActError.
Proof. reflexivity. Qed.

(** A second [import btyd] finds the module in [sys.modules] and does not run
    the body again. *)
Lemma import_btyd_again import_submodules st :
  "btyd" ∈ sys_modules st -> import_btyd import_submodules st = Ok st.
Proof.
  intros Hin. unfold import_btyd.
  rewrite bool_decide_eq_true_2 by exact Hin. reflexivity.
Qed.

(** A default interpreter: the filter that applies is
    [ignore::DeprecationWarning]. *)
Lemma import_btyd_warns_once_witness :
  ("btyd" ∉ sys_modules (python []))
  /\ exists st2,
       warn_calls st2 = [deprecation]
       /\ (shown st2 = [] \/ shown st2 = [deprecation])
       /\ import_btyd Ok (python []) = Ok st2.
Proof.
  assert (Hnew : "btyd" ∉ sys_modules (python [])).
  { simpl. apply not_elem_of_empty. }
  split; [exact Hnew |].
  exact (import_btyd_warns_once Ok (python [])
           (register_module "btyd" (python [])) Hnew eq_refl).
Defined.

End PackageInit.

(** ** Data preparation in the test-suite

    The weight tests build two datasets for the same customers and fit both:
    [TestBetaGeoBetaBinomFitter.test_fit_with_and_without_weights] repeats
    every weighted row as often as its weight says, the Pareto/NBD and BG/NBD
    weight tests collapse equal rows into one row with a count.  Both
    transformations are written out in [tests/test_estimation.py]. *)

Module TestData.

(** The statistics of a row: [(frequency, recency, T)], compared as the
    numbers they are. *)
Definition stats : Type := (Qc * Qc * Qc)%type.

(** [donations["weights"].sum()]. *)
Definition weights_sum {A : Type} (ds : list (A * Z)) : Z :=
  fold_right Z.add 0%Z (map snd ds).

(** Lines 190 to 199: starting from an empty frame, every row of the weighted
    frame appends [[row] * weights] to it; a list times a number that is not
    positive is empty. *)
Definition explode {A : Type} (ds : list (A * Z)) : list A :=
  flat_map (fun rw => repeat (fst rw) (Z.to_nat (snd rw))) ds.

Definition nonnegative_weights {A : Type} (ds : list (A * Z)) : Prop :=
  Forall (fun rw => (0 <= snd rw)%Z) ds.

(** *** Exploding a weighted frame *)

Lemma explode_app {A : Type} (ds1 ds2 : list (A * Z)) :
  explode (ds1 ++ ds2) = explode ds1 ++ explode ds2.
Proof. unfold explode. apply flat_map_app. Qed.

Lemma length_explode {A : Type} (ds : list (A * Z)) :
  Z.of_nat (length (explode ds))
  = fold_right Z.add 0%Z (map (fun rw => Z.max 0 (snd rw)) ds).
Proof.
  induction ds as [|[row w] ds IH]; simpl; [reflexivity |].
  rewrite length_app, repeat_length, Nat2Z.inj_add, IH. simpl. lia.
Qed.

Lemma weights_sum_le_clipped {A : Type} (ds : list (A * Z)) :
  (weights_sum ds
   <= fold_right Z.add 0 (map (fun rw => Z.max 0 (snd rw)) ds))%Z.
Proof.
  unfold weights_sum. induction ds as [|[row w] ds IH]; simpl; lia.
Qed.

(** X1: the assertion of line 203,
    [exploded_dataset.shape[0] == donations["weights"].sum()], holds exactly
    when no weight is negative. *)
Theorem explode_shape {A : Type} (ds : list (A * Z)) :
  Z.of_nat (length (explode ds)) = weights_sum ds
  <-> nonnegative_weights ds.
Proof.
  rewrite length_explode. unfold nonnegative_weights, weights_sum.
  induction ds as [|[row w] ds IH]; simpl.
  - split; [constructor | reflexivity].
  - pose proof (weights_sum_le_clipped ds) as Hle. unfold weights_sum in Hle.
    split.
    + intros Heq. constructor; [simpl; lia |]. apply IH. lia.
    + intros Hall. inversion Hall as [|rw ds' Hw Hds]; subst. simpl in Hw.
      apply IH in Hds. lia.
Qed.

(** *** Grouping equal rows *)

(** The order in which [groupby] lists its groups: by the key columns
    [frequency], [recency], [T], in that order. *)
Definition stats_compare (a b : stats) : comparison :=
  let '(x, t_x, t) := a in
  let '(x', t_x', t') := b in
  match (x ?= x')%Qc with
  | Eq => match (t_x ?= t_x')%Qc with
          | Eq => (t ?= t')%Qc
          | c => c
          end
  | c => c
  end.

(** One more row with key [k] and weight [n] in a frame of groups kept in
    key order: a new group in its place, or [n] more in the group of [k]. *)
Fixpoint insert_group (k : stats) (n : Z) (groups : list (stats * Z))
  : list (stats * Z) :=
  match groups with
  | [] => [(k, n)]
  | (k', n') :: rest =>
      match stats_compare k k' with
      | Lt => (k, n) :: (k', n') :: rest
      | Eq => (k', (n' + n)%Z) :: rest
      | Gt => (k', n') :: insert_group k n rest
      end
  end.

(** Lines 878 to 883:
    [groupby(["frequency", "recency", "T"])["weights"].sum().reset_index()],
    one row per distinct key, in key order, with the weights added up. *)
Definition groupby_sum (rows : list (stats * Z)) : list (stats * Z) :=
  fold_left (fun groups kw => insert_group (fst kw) (snd kw) groups) rows [].

(** Lines 601 to 608: [groupby([...]).size().reset_index()], the number of
    rows of each key; the same frame as giving every row the weight 1 and
    adding up, which is what lines 878 to 883 do. *)
Definition groupby_size (rows : list stats) : list (stats * Z) :=
  groupby_sum (map (fun k => (k, 1%Z)) rows).

(** [(cdnow_weights["weights"] > 1).any()]. *)
Definition any_weight_above_1 (groups : list (stats * Z)) : bool :=
  existsb (fun kw => (1 <? snd kw)%Z) groups.

Definition key_lt (a b : stats * Z) : Prop :=
  stats_compare (fst a) (fst b) = Lt.

Lemma stats_compare_eq a b : stats_compare a b = Eq <-> a = b.
Proof.
  destruct a as [[x t_x] t], b as [[x' t_x'] t']. unfold stats_compare.
  split.
  - destruct (x ?= x')%Qc eqn:Hx; try discriminate.
    destruct (t_x ?= t_x')%Qc eqn:Ht_x; try discriminate.
    intros Ht. apply Qceq_alt in Hx, Ht_x, Ht. congruence.
  - intros [= -> -> ->].
    rewrite !(proj1 (Qceq_alt _ _) eq_refl). reflexivity.
Qed.

Lemma Qccompare_antisym (p q : Qc) : (q ?= p)%Qc = CompOpp (p ?= q)%Qc.
Proof. unfold Qccompare. symmetry. apply Qcompare_antisym. Qed.

Lemma stats_compare_antisym a b :
  stats_compare b a = CompOpp (stats_compare a b).
Proof.
  destruct a as [[x t_x] t], b as [[x' t_x'] t']. unfold stats_compare.
  rewrite (Qccompare_antisym x x'), (Qccompare_antisym t_x t_x'),
    (Qccompare_antisym t t').
  destruct (x ?= x')%Qc; try reflexivity.
  destruct (t_x ?= t_x')%Qc; reflexivity.
Qed.

Lemma Qccompare_lt_trans (p q r : Qc) :
  (p ?= q)%Qc = Lt -> (q ?= r)%Qc = Lt -> (p ?= r)%Qc = Lt.
Proof.
  rewrite <- !Qclt_alt. apply Qclt_trans.
Qed.

Lemma Qccompare_refl (p : Qc) : (p ?= p)%Qc = Eq.
Proof. apply Qceq_alt. reflexivity. Qed.

Lemma stats_compare_lt_iff (x y z x' y' z' : Qc) :
  stats_compare (x, y, z) (x', y', z') = Lt
  <-> (x < x')%Qc
      \/ (x = x' /\ ((y < y')%Qc \/ (y = y' /\ (z < z')%Qc))).
Proof.
  unfold stats_compare. rewrite !Qclt_alt, !Qceq_alt.
  destruct (x ?= x')%Qc; destruct (y ?= y')%Qc; destruct (z ?= z')%Qc;
    intuition congruence.
Qed.

Lemma stats_compare_lt_trans a b c :
  stats_compare a b = Lt -> stats_compare b c = Lt -> stats_compare a c = Lt.
Proof.
  destruct a as [[x1 y1] z1], b as [[x2 y2] z2], c as [[x3 y3] z3].
  rewrite !stats_compare_lt_iff.
  intros [H12 | [-> [H12 | [-> H12]]]] [H23 | [<- [H23 | [<- H23]]]];
    eauto 8 using Qclt_trans.
Qed.

Lemma stats_compare_refl a : stats_compare a a = Eq.
Proof. apply stats_compare_eq. reflexivity. Qed.

Lemma insert_group_Forall_lt a k n groups :
  key_lt a (k, n) -> Forall (key_lt a) groups ->
  Forall (key_lt a) (insert_group k n groups).
Proof.
  intros Hk. induction 1 as [|[k' n'] rest Hk' Hrest IH]; simpl.
  - repeat constructor. exact Hk.
  - destruct (stats_compare k k'); repeat constructor;
      first [assumption | exact Hk'].
Qed.

Lemma insert_group_sorted k n groups :
  StronglySorted key_lt groups ->
  StronglySorted key_lt (insert_group k n groups).
Proof.
  induction 1 as [|[k' n'] rest Hrest IH Hall]; simpl.
  - repeat constructor.
  - destruct (stats_compare k k') eqn:Hc.
    + constructor; assumption.
    + constructor; [constructor; assumption |].
      constructor; [exact Hc |].
      eapply Forall_impl; [exact Hall |].
      intros [k'' n''] Hlt. unfold key_lt in *. simpl in *.
      eapply stats_compare_lt_trans; eassumption.
    + constructor; [exact IH |].
      apply insert_group_Forall_lt; [| exact Hall].
      unfold key_lt. simpl. rewrite stats_compare_antisym, Hc. reflexivity.
Qed.

Lemma fold_insert_group_sorted rows groups :
  StronglySorted key_lt groups ->
  StronglySorted key_lt
    (fold_left (fun groups kw => insert_group (fst kw) (snd kw) groups)
       rows groups).
Proof.
  revert groups. induction rows as [|[k n] rows IH]; intros groups Hs; simpl.
  - exact Hs.
  - apply IH, insert_group_sorted, Hs.
Qed.

Lemma weights_sum_insert_group k n groups :
  weights_sum (insert_group k n groups) = (n + weights_sum groups)%Z.
Proof.
  unfold weights_sum. induction groups as [|[k' n'] rest IH]; simpl.
  - reflexivity.
  - destruct (stats_compare k k'); simpl; [lia | lia |].
    rewrite IH. lia.
Qed.

Lemma weights_sum_cons {A : Type} (row : A) (n : Z) (ds : list (A * Z)) :
  weights_sum ((row, n) :: ds) = (n + weights_sum ds)%Z.
Proof. reflexivity. Qed.

Lemma weights_sum_fold_insert_group rows groups :
  weights_sum
    (fold_left (fun groups kw => insert_group (fst kw) (snd kw) groups)
       rows groups)
  = (weights_sum groups + weights_sum rows)%Z.
Proof.
  revert groups. induction rows as [|[k n] rows IH]; intros groups.
  - simpl. unfold weights_sum at 3. simpl. lia.
  - cbn [fold_left fst snd].
    rewrite IH, weights_sum_insert_group, weights_sum_cons. lia.
Qed.

(** X3: whatever the rows and their weights, [groupby(...).sum()] lists its
    groups in strictly ascending key order, so no key comes twice, and the
    weights of the groups add up to the weights of the rows. *)
Theorem groupby_sum_sorted_total (rows : list (stats * Z)) :
  StronglySorted key_lt (groupby_sum rows)
  /\ NoDup (map fst (groupby_sum rows))
  /\ weights_sum (groupby_sum rows) = weights_sum rows.
Proof.
  assert (Hs : StronglySorted key_lt (groupby_sum rows)).
  { apply fold_insert_group_sorted. constructor. }
  split; [exact Hs |]. split.
  - induction Hs as [|[k n] rest _ IH Hall]; simpl; constructor.
    + rewrite list_elem_of_In, in_map_iff.
      intros [[k' n'] [Hk Hin]]. simpl in Hk. subst k'.
      rewrite Forall_forall in Hall.
      apply list_elem_of_In, Hall in Hin.
      unfold key_lt in Hin. simpl in Hin.
      rewrite stats_compare_refl in Hin. discriminate.
    + exact IH.
  - unfold groupby_sum. rewrite weights_sum_fold_insert_group. reflexivity.
Qed.

(** *** Grouping and exploding *)

Lemma insert_group_nonnegative k n groups :
  (0 <= n)%Z -> nonnegative_weights groups ->
  nonnegative_weights (insert_group k n groups).
Proof.
  intros Hn. unfold nonnegative_weights.
  induction 1 as [|[k' n'] rest Hn' Hrest IH]; simpl.
  - repeat constructor. exact Hn.
  - simpl in Hn'. destruct (stats_compare k k'); repeat constructor;
      simpl; first [assumption | lia].
Qed.

Lemma explode_insert_group k n groups :
  (0 <= n)%Z -> nonnegative_weights groups ->
  explode (insert_group k n groups)
  ≡ₚ repeat k (Z.to_nat n) ++ explode groups.
Proof.
  intros Hn. unfold nonnegative_weights.
  induction 1 as [|[k' n'] rest Hn' Hrest IH]; simpl.
  - reflexivity.
  - simpl in Hn'. destruct (stats_compare k k') eqn:Hc.
    + apply stats_compare_eq in Hc. subst k'.
      cbn [explode flat_map fst snd]. fold (explode rest).
      rewrite Z2Nat.inj_add, repeat_app by assumption.
      rewrite <- !app_assoc. apply Permutation_app_swap_app.
    + reflexivity.
    + cbn [explode flat_map fst snd]. fold (explode rest).
      fold (explode (insert_group k n rest)). rewrite IH.
      apply Permutation_app_swap_app.
Qed.

Lemma fold_insert_group_explode rows groups :
  nonnegative_weights rows -> nonnegative_weights groups ->
  nonnegative_weights
    (fold_left (fun groups kw => insert_group (fst kw) (snd kw) groups)
       rows groups)
  /\ explode
       (fold_left (fun groups kw => insert_group (fst kw) (snd kw) groups)
          rows groups)
     ≡ₚ explode groups ++ explode rows.
Proof.
  intros Hrows. revert groups.
  induction Hrows as [|[k n] rows Hn _ IH]; intros groups Hg.
  - simpl. split; [exact Hg |]. rewrite app_nil_r. reflexivity.
  - simpl in Hn. cbn [fold_left fst snd].
    destruct (IH (insert_group k n groups)
                (insert_group_nonnegative k n groups Hn Hg)) as [Hnn Hp].
    split; [exact Hnn |].
    rewrite Hp, (explode_insert_group k n groups Hn Hg).
    cbn [explode flat_map fst snd]. fold (explode rows).
    rewrite <- !app_assoc. apply Permutation_app_swap_app.
Qed.

Lemma explode_unit_weights (rows : list stats) :
  explode (map (fun k => (k, 1%Z)) rows) = rows.
Proof.
  induction rows as [|k rows IH]; [reflexivity |].
  cbn [map explode flat_map fst snd]. fold (explode (map (fun k => (k, 1%Z)) rows)).
  rewrite IH. reflexivity.
Qed.

Lemma unit_weights_nonnegative (rows : list stats) :
  nonnegative_weights (map (fun k => (k, 1%Z)) rows).
Proof.
  unfold nonnegative_weights. apply Forall_map, Forall_forall.
  intros k _. simpl. lia.
Qed.

Lemma groupby_size_explode_perm (rows : list stats) :
  nonnegative_weights (groupby_size rows)
  /\ explode (groupby_size rows) ≡ₚ rows.
Proof.
  destruct (fold_insert_group_explode (map (fun k => (k, 1%Z)) rows) []
              (unit_weights_nonnegative rows) (Forall_nil_2 _)) as [Hnn Hp].
  split; [exact Hnn |].
  unfold groupby_size, groupby_sum. rewrite Hp.
  simpl. apply Permutation_refl', explode_unit_weights.
Qed.

(** *** Duplicated rows *)

Lemma NoDup_repeat {A : Type} (a : A) (n : nat) :
  NoDup (repeat a n) <-> (n <= 1)%nat.
Proof.
  destruct n as [|[|n]]; simpl.
  - split; [lia | constructor].
  - split; [lia | intros _; apply NoDup_singleton].
  - split; [| lia]. intros Hnd. apply NoDup_cons in Hnd as [Hnotin _].
    exfalso. apply Hnotin. left.
Qed.

Lemma elem_of_explode_key (k : stats) (groups : list (stats * Z)) :
  k ∈ explode groups -> exists n, (k, n) ∈ groups.
Proof.
  rewrite list_elem_of_In. unfold explode. rewrite in_flat_map.
  intros [[k' n] [Hin Hrep]]. simpl in Hrep.
  apply repeat_spec in Hrep. subst k'.
  exists n. apply list_elem_of_In, Hin.
Qed.

Lemma NoDup_explode (groups : list (stats * Z)) :
  StronglySorted key_lt groups -> nonnegative_weights groups ->
  NoDup (explode groups) <-> Forall (fun kw => (snd kw <= 1)%Z) groups.
Proof.
  induction 1 as [|[k n] rest Hrest IH Hall]; intros Hnn.
  - split; constructor.
  - inversion Hnn as [|kw rest' Hn Hnn']; subst. simpl in Hn.
    cbn [explode flat_map fst snd]. fold (explode rest).
    rewrite NoDup_app, NoDup_repeat, (IH Hnn'), Forall_cons. simpl.
    split.
    + intros [Hle [_ Hf]]. split; [lia | exact Hf].
    + intros [Hle Hf]. split; [lia |]. split; [| exact Hf].
      intros x Hx Hx'. apply list_elem_of_In, repeat_spec in Hx. subst x.
      apply elem_of_explode_key in Hx' as [n' Hin].
      rewrite Forall_forall in Hall. specialize (Hall _ Hin).
      unfold key_lt in Hall. simpl in Hall.
      rewrite stats_compare_refl in Hall. discriminate.
Qed.

Lemma any_weight_above_1_false (groups : list (stats * Z)) :
  any_weight_above_1 groups = false
  <-> Forall (fun kw => (snd kw <= 1)%Z) groups.
Proof.
  unfold any_weight_above_1. induction groups as [|[k n] rest IH]; simpl.
  - split; [constructor | reflexivity].
  - rewrite orb_false_iff, IH, Forall_cons, Z.ltb_ge. reflexivity.
Qed.

(** X6: the assertion of line 884, [(cdnow_weights["weights"] > 1).any()],
    holds exactly when two rows of the data share their
    [(frequency, recency, T)]; on data without repeated rows the test
    fails before any fit. *)
Theorem any_weight_above_1_iff_duplicates (rows : list stats) :
  any_weight_above_1 (groupby_size rows) = true <-> ~ NoDup rows.
Proof.
  destruct (groupby_size_explode_perm rows) as [Hnn Hp].
  assert (Hs : StronglySorted key_lt (groupby_size rows)).
  { apply fold_insert_group_sorted. constructor. }
  assert (Hnd : NoDup rows <-> any_weight_above_1 (groupby_size rows) = false).
  { rewrite any_weight_above_1_false, <- (NoDup_explode _ Hs Hnn).
    split; apply NoDup_Permutation_proper; [| symmetry]; exact Hp. }
  rewrite Hnd.
  destruct (any_weight_above_1 (groupby_size rows)); split; congruence.
Qed.

(** *** Grouping an exploded frame *)

Definition key_below (k : stats) (groups : list (stats * Z)) : Prop :=
  Forall (fun kw => stats_compare (fst kw) k = Lt) groups.

Lemma stats_compare_gt a b : stats_compare a b = Lt -> stats_compare b a = Gt.
Proof. intros H. rewrite stats_compare_antisym, H. reflexivity. Qed.

Lemma insert_group_above k n groups :
  key_below k groups -> insert_group k n groups = groups ++ [(k, n)].
Proof.
  induction 1 as [|[k' n'] rest Hlt _ IH]; simpl; [reflexivity |].
  simpl in Hlt. rewrite (stats_compare_gt _ _ Hlt), IH. reflexivity.
Qed.

Lemma insert_group_last k n m groups :
  key_below k groups ->
  insert_group k n (groups ++ [(k, m)]) = groups ++ [(k, (m + n)%Z)].
Proof.
  induction 1 as [|[k' n'] rest Hlt _ IH]; simpl.
  - rewrite stats_compare_refl. reflexivity.
  - simpl in Hlt. rewrite (stats_compare_gt _ _ Hlt), IH. reflexivity.
Qed.

Lemma fold_insert_group_repeat k (c : nat) m groups rows :
  key_below k groups ->
  fold_left (fun groups kw => insert_group (fst kw) (snd kw) groups)
    (map (fun k => (k, 1%Z)) (repeat k c) ++ rows) (groups ++ [(k, m)])
  = fold_left (fun groups kw => insert_group (fst kw) (snd kw) groups)
      rows (groups ++ [(k, (m + Z.of_nat c)%Z)]).
Proof.
  intros Hb. revert m. induction c as [|c IH]; intros m.
  - simpl. rewrite Z.add_0_r. reflexivity.
  - cbn [repeat map app fold_left fst snd].
    rewrite (insert_group_last _ _ _ _ Hb), IH.
    replace (m + 1 + Z.of_nat c)%Z with (m + Z.of_nat (S c))%Z by lia.
    reflexivity.
Qed.

Lemma fold_insert_group_exploded groups acc :
  StronglySorted key_lt groups ->
  Forall (fun kw => (1 <= snd kw)%Z) groups ->
  Forall (fun kw => key_below (fst kw) acc) groups ->
  fold_left (fun groups kw => insert_group (fst kw) (snd kw) groups)
    (map (fun k => (k, 1%Z)) (explode groups)) acc
  = acc ++ groups.
Proof.
  intros Hs. revert acc.
  induction Hs as [|[k n] rest Hrest IH Hall]; intros acc Hpos Hacc.
  - simpl. rewrite app_nil_r. reflexivity.
  - inversion Hpos as [|kw rest' Hn Hpos']; subst. simpl in Hn.
    inversion Hacc as [|kw rest' Hk Hacc']; subst. simpl in Hk.
    cbn [explode flat_map fst snd]. fold (explode rest).
    destruct (Z.to_nat n) as [|c] eqn:Hc; [lia |].
    rewrite map_app. cbn [repeat map app fold_left fst snd].
    rewrite (insert_group_above _ _ _ Hk).
    rewrite (fold_insert_group_repeat _ _ _ _ _ Hk).
    replace (1 + Z.of_nat c)%Z with n by lia.
    rewrite IH; [rewrite <- app_assoc; reflexivity | exact Hpos' |].
    rewrite Forall_forall in Hall, Hacc' |- *.
    intros [k' n'] Hin. simpl. unfold key_below.
    apply Forall_app. split.
    + specialize (Hacc' _ Hin). simpl in Hacc'.
      specialize (Hall _ Hin). unfold key_lt in Hall. simpl in Hall.
      eapply Forall_impl; [exact Hk |].
      intros [k'' n''] Hlt. simpl in *.
      eapply stats_compare_lt_trans; eassumption.
    + constructor; [| constructor]. simpl.
      exact (Hall _ Hin).
Qed.

(** *** Grouping and exploding an all-integer frame

    The explode loop multiplies a list by [row["weights"]], which takes an
    integer: it runs on frames whose columns are all integers, such as the
    donations frame.  On such a frame [groupby(...).size()] keeps the keys
    integers and counts in integers. *)

Definition int_stats : Type := (Z * Z * Z)%type.

(** An integer row among the rows compared as numbers, and back. *)
Definition int_key (r : int_stats) : stats :=
  let '(x, t_x, t) := r in (Qc_of_Z x, Qc_of_Z t_x, Qc_of_Z t).

Definition to_int (s : stats) : int_stats :=
  let '(x, t_x, t) := s in (Qfloor x, Qfloor t_x, Qfloor t).

(** [groupby(["frequency", "recency", "T"]).size().reset_index()] on an
    all-integer frame. *)
Definition groupby_size_int (rows : list int_stats)
  : list (int_stats * Z) :=
  map (fun kw => (to_int (fst kw), snd kw))
    (groupby_size (map int_key rows)).

(** The keys of an integer frame among the rows compared as numbers. *)
Definition as_numbers (frame : list (int_stats * Z)) : list (stats * Z) :=
  map (fun kw => (int_key (fst kw), snd kw)) frame.

Lemma to_int_int_key r : to_int (int_key r) = r.
Proof.
  destruct r as [[x t_x] t]. unfold to_int, int_key. cbn [this Qc_of_Z].
  rewrite !Qfloor_Z. reflexivity.
Qed.

Lemma explode_map {A B : Type} (f : A -> B) (ds : list (A * Z)) :
  explode (map (fun kw => (f (fst kw), snd kw)) ds) = map f (explode ds).
Proof.
  induction ds as [|[a n] ds IH]; [reflexivity |].
  cbn [map explode flat_map fst snd].
  fold (explode (map (fun kw => (f (fst kw), snd kw)) ds)).
  fold (explode ds). rewrite IH, map_app, map_repeat. reflexivity.
Qed.

Lemma map_to_int_int_key (rows : list int_stats) :
  map to_int (map int_key rows) = rows.
Proof.
  rewrite map_map. induction rows as [|r rows IH]; [reflexivity |].
  cbn [map]. rewrite to_int_int_key, IH. reflexivity.
Qed.

Lemma weights_sum_map {A B : Type} (f : A -> B) (ds : list (A * Z)) :
  weights_sum (map (fun kw => (f (fst kw), snd kw)) ds) = weights_sum ds.
Proof. unfold weights_sum. rewrite map_map. reflexivity. Qed.

(** X4: on an all-integer frame, exploding the frame of
    [groupby(...).size()] gives back the rows it was computed from, up to
    their order, and the counts add up to the number of rows: the weighted
    frame stands for exactly the rows of the unweighted one. *)
Theorem explode_groupby_size (rows : list int_stats) :
  explode (groupby_size_int rows) ≡ₚ rows
  /\ weights_sum (groupby_size_int rows) = Z.of_nat (length rows).
Proof.
  unfold groupby_size_int. split.
  - rewrite explode_map.
    rewrite (proj2 (groupby_size_explode_perm (map int_key rows))).
    rewrite map_to_int_int_key. reflexivity.
  - rewrite weights_sum_map. unfold groupby_size, groupby_sum.
    rewrite weights_sum_fold_insert_group.
    change (weights_sum []) with 0%Z. rewrite map_map.
    induction rows as [|k rows IH]; [reflexivity |].
    cbn [map length]. rewrite weights_sum_cons. lia.
Qed.

(** X7: on an all-integer frame with one row per key, in ascending key
    order, and counts of at least one, exploding the frame and grouping the
    exploded rows with [groupby(...).size()] gives back the frame itself. *)
Theorem groupby_size_explode (frame : list (int_stats * Z)) :
  StronglySorted key_lt (as_numbers frame) ->
  Forall (fun kw => (1 <= snd kw)%Z) frame ->
  groupby_size_int (explode frame) = frame.
Proof.
  intros Hs Hpos. unfold groupby_size_int, groupby_size, groupby_sum.
  rewrite <- (explode_map int_key frame). fold (as_numbers frame).
  rewrite (fold_insert_group_exploded (as_numbers frame) [] Hs).
  - cbn [app]. clear Hs Hpos. unfold as_numbers.
    induction frame as [|[r n] frame IH]; [reflexivity |].
    cbn [map fst snd]. rewrite to_int_int_key, IH. reflexivity.
  - unfold as_numbers. apply Forall_map.
    eapply Forall_impl; [exact Hpos |]. intros kw Hkw. exact Hkw.
  - apply Forall_forall. intros kw _. constructor.
Qed.

(** A small all-integer frame: three keys in order. *)
Definition small_frame : list (int_stats * Z) :=
  [ ((0, 0, 6)%Z, 3%Z);
    ((1, 2, 6)%Z, 1%Z);
    ((2, 5, 6)%Z, 2%Z) ].

Lemma small_frame_sorted : StronglySorted key_lt (as_numbers small_frame).
Proof.
  unfold small_frame, as_numbers. cbn [map fst snd].
  repeat (constructor; [| repeat (constructor; try reflexivity)]).
  constructor.
Qed.

Lemma small_frame_positive :
  Forall (fun kw => (1 <= snd kw)%Z) small_frame.
Proof. unfold small_frame. repeat constructor; simpl; lia. Qed.

Lemma groupby_size_explode_witness :
  StronglySorted key_lt (as_numbers small_frame)
  /\ Forall (fun kw => (1 <= snd kw)%Z) small_frame
  /\ groupby_size_int (explode small_frame) = small_frame.
Proof.
  split; [exact small_frame_sorted |].
  split; [exact small_frame_positive |].
  exact (groupby_size_explode small_frame small_frame_sorted
           small_frame_positive).
Defined.

End TestData.

(** ** Importing the package again, and what the user sees *)

Module Importing.

Import PackageInit.
Local Open Scope string_scope.
Local Open Scope list_scope.

(** The state an import ends in, whether it returns or raises. *)
Definition state_of (r : result) : interpreter :=
  match r with
  | Ok st => st
  | Raise _ _ st => st
  end.

Lemma warn_sys_modules w st :
  sys_modules (state_of (warn w st)) = sys_modules st.
Proof.
  unfold warn.
  destruct (bool_decide _); [reflexivity |].
  destruct (search_filters _ _ _); try reflexivity;
    destruct (bool_decide _); reflexivity.
Qed.

(** The submodule imports only add to [sys.modules]. *)
Definition imports_keep_modules (import_submodules : interpreter -> result)
  : Prop :=
  forall st st1,
    import_submodules st = Ok st1 -> sys_modules st ⊆ sys_modules st1.

(** X8: once [import btyd] has returned, importing it again returns at once
    and leaves the interpreter as it is: the deprecation warning is issued
    once per interpreter, however often the package is imported. *)
Theorem import_btyd_idempotent
    (import_submodules : interpreter -> result) (st st2 : interpreter) :
  imports_keep_modules import_submodules ->
  import_btyd import_submodules st = Ok st2 ->
  import_btyd import_submodules st2 = Ok st2.
Proof.
  intros Hkeep Himp. apply import_btyd_again.
  unfold import_btyd in Himp.
  destruct (bool_decide ("btyd" ∈ sys_modules st)) eqn:Hin.
  - injection Himp as <-. apply bool_decide_eq_true in Hin. exact Hin.
  - unfold module_body in Himp.
    destruct (import_submodules (register_module "btyd" st))
      as [st1 | c m st1] eqn:Hsub; cbn [bind] in Himp; [| discriminate].
    apply Hkeep in Hsub.
    pose proof (warn_sys_modules deprecation (fresh_globals st1)) as Hmods.
    unfold deprecated in Himp.
    destruct (warn deprecation (fresh_globals st1)) as [st' | c m st'];
      [| discriminate].
    injection Himp as <-. cbn [state_of] in Hmods. rewrite Hmods.
    cbn [fresh_globals sys_modules]. apply Hsub.
    cbn [register_module sys_modules].
    apply elem_of_union_l, elem_of_singleton. reflexivity.
Qed.

Lemma imports_keep_modules_Ok : imports_keep_modules Ok.
Proof. intros st st1 [= <-]. reflexivity. Qed.

Lemma import_btyd_idempotent_witness :
  imports_keep_modules Ok
  /\ exists st2,
       import_btyd Ok (python []) = Ok st2
       /\ import_btyd Ok st2 = Ok st2.
Proof.
  split; [exact imports_keep_modules_Ok |].
  eexists. split; [reflexivity |].
  exact (import_btyd_idempotent Ok (python []) _ imports_keep_modules_Ok
           eq_refl).
Defined.

(** The submodule imports complete and leave the warnings filters alone. *)
Definition imports_leave_filters (import_submodules : interpreter -> result)
  : Prop :=
  forall st, exists st1,
    import_submodules st = Ok st1
    /\ filters st1 = filters st
    /\ defaultaction st1 = defaultaction st.

Lemma deprecation_action_ext st st' :
  filters st' = filters st -> defaultaction st' = defaultaction st ->
  deprecation_action st' = deprecation_action st.
Proof. intros Hf Hd. unfold deprecation_action. rewrite Hf, Hd. reflexivity. Qed.

(** X10: while the filters in force turn the deprecation warning into an
    error, [import btyd] raises it on every attempt: the failed import
    leaves the interpreter in a state where the next attempt fails in the
    same way, so the package cannot be imported at all. *)
Theorem import_blocked_under_error
    (import_submodules : interpreter -> result) (st : interpreter) :
  imports_leave_filters import_submodules ->
  "btyd" ∉ sys_modules st ->
  deprecation_action st = ActError ->
  exists st2,
    import_btyd import_submodules st
    = Raise DeprecationWarning deprecation_message st2
    /\ ("btyd" ∉ sys_modules st2)
    /\ deprecation_action st2 = ActError.
Proof.
  intros Hsub Hnew Herr.
  destruct (Hsub (register_module "btyd" st)) as [st1 [Hst1 [Hf Hd]]].
  rewrite (import_btyd_first _ _ Hnew). unfold module_body.
  rewrite Hst1. cbn [bind]. rewrite deprecated_fresh. cbv zeta.
  rewrite (deprecation_action_ext _ _ Hf Hd).
  change (deprecation_action (register_module "btyd" st))
    with (deprecation_action st).
  rewrite Herr. eexists. split; [reflexivity |]. split.
  - cbn [unregister_module sys_modules].
    rewrite elem_of_difference, elem_of_singleton. tauto.
  - rewrite <- Herr. apply deprecation_action_ext.
    + cbn. exact Hf.
    + cbn. exact Hd.
Qed.

Lemma imports_leave_filters_Ok : imports_leave_filters Ok.
Proof. intros st. exists st. repeat split. Qed.

Lemma import_blocked_under_error_witness :
  imports_leave_filters Ok
  /\ ("btyd" ∉ sys_modules (python W_error))
  /\ deprecation_action (python W_error) = ActError
  /\ exists st2,
       import_btyd Ok (python W_error)
       = Raise DeprecationWarning deprecation_message st2
       /\ ("btyd" ∉ sys_modules st2)
       /\ deprecation_action st2 = ActError.
Proof.
  assert (Hnew : "btyd" ∉ sys_modules (python W_error)).
  { simpl. apply not_elem_of_empty. }
  split; [exact imports_leave_filters_Ok |].
  split; [exact Hnew |]. split; [reflexivity |].
  exact (import_blocked_under_error Ok (python W_error)
           imports_leave_filters_Ok Hnew eq_refl).
Defined.

Lemma unmatched_options_ignore option_W dflt :
  Forall (fun f => filter_applies f deprecation = false) option_W ->
  search_filters (option_W ++ default_filters) dflt deprecation = ActIgnore.
Proof.
  induction 1 as [|f fs Hf _ IH]; simpl.
  - reflexivity.
  - rewrite Hf. exact IH.
Qed.

(** X11: when the submodule imports have completed and the warnings filters
    then are the default ones, preceded at most by entries that do not apply
    to this warning, [import btyd] issues the deprecation warning but shows
    nothing and raises nothing: the warning is attributed to module [btyd],
    not to [__main__], so [ignore::DeprecationWarning] is the filter that
    picks it up. *)
Theorem import_btyd_silent_by_default
    (import_submodules : interpreter -> result) (st st1 : interpreter)
    (installed : list filter) :
  "btyd" ∉ sys_modules st ->
  import_submodules (register_module "btyd" st) = Ok st1 ->
  filters st1 = installed ++ default_filters ->
  Forall (fun f => filter_applies f deprecation = false) installed ->
  exists st2,
    import_btyd import_submodules st = Ok st2
    /\ warn_calls st2 = warn_calls st1 ++ [deprecation]
    /\ shown st2 = shown st1.
Proof.
  intros Hnew Hsub Hfilters Hw.
  rewrite (import_btyd_first _ _ Hnew). unfold module_body.
  rewrite Hsub. cbn [bind]. rewrite deprecated_fresh. cbv zeta.
  unfold deprecation_action. rewrite Hfilters.
  rewrite (unmatched_options_ignore _ _ Hw).
  eexists. split; [reflexivity |]. split; reflexivity.
Qed.

(** Submodule imports that register their modules and, as numerical
    libraries do on import, put a filter of their own in front. *)
Definition registering_imports (st : interpreter) : result :=
  Ok (Interpreter
        ({["btyd.fitters"; "btyd.models"]} ∪ sys_modules st)
        (Filter ActIgnore (Some (String.eqb "numpy.dtype size changed"))
           Warning None 0 :: filters st)
        (defaultaction st) (onceregistry st) (registry st)
        (warn_calls st) (shown st)).

Lemma import_btyd_silent_by_default_witness :
  let installed :=
    [Filter ActIgnore (Some (String.eqb "numpy.dtype size changed"))
       Warning None 0] in
  ("btyd" ∉ sys_modules (python []))
  /\ Forall (fun f => filter_applies f deprecation = false) installed
  /\ exists st2,
       import_btyd registering_imports (python []) = Ok st2
       /\ warn_calls st2 = [deprecation]
       /\ shown st2 = [].
Proof.
  intros installed.
  assert (Hnew : "btyd" ∉ sys_modules (python [])).
  { simpl. apply not_elem_of_empty. }
  assert (Hw : Forall (fun f => filter_applies f deprecation = false)
                 installed).
  { repeat constructor. }
  split; [exact Hnew |]. split; [exact Hw |].
  exact (import_btyd_silent_by_default registering_imports (python []) _
           installed Hnew eq_refl eq_refl Hw).
Defined.

(** *** [from btyd import *] *)

(** What a name of the module is bound to: a module, an object imported
    from a submodule, a string, a tuple of names or a function defined in
    the body. *)
Inductive object : Type :=
  | ModuleObject (name : string)
  | ImportedFrom (submodule name : string)
  | Str (value : string)
  | Names (names : list string)
  | Function (name : string).

(** Lines 16 to 26. *)
Definition __all__ : list string :=
  [ "__version__";
    "BetaGeoFitter";
    "ParetoNBDFitter";
    "GammaGammaFitter";
    "ModifiedBetaGeoFitter";
    "BetaGeoBetaBinomFitter";
    "BetaGeoCovarsFitter";
    "BetaGeoModel";
    "GammaGammaModel" ].

(** The bindings the module body makes, in the order of lines 1 to 28. *)
Definition bindings : list (string * object) :=
  [ ("warnings", ModuleObject "warnings");
    ("BaseFitter", ImportedFrom ".fitters" "BaseFitter");
    ("BetaGeoFitter",
     ImportedFrom ".fitters.beta_geo_fitter" "BetaGeoFitter");
    ("BetaGeoBetaBinomFitter",
     ImportedFrom ".fitters.beta_geo_beta_binom_fitter"
       "BetaGeoBetaBinomFitter");
    ("ModifiedBetaGeoFitter",
     ImportedFrom ".fitters.modified_beta_geo_fitter"
       "ModifiedBetaGeoFitter");
    ("ParetoNBDFitter",
     ImportedFrom ".fitters.pareto_nbd_fitter" "ParetoNBDFitter");
    ("GammaGammaFitter",
     ImportedFrom ".fitters.gamma_gamma_fitter" "GammaGammaFitter");
    ("BetaGeoCovarsFitter",
     ImportedFrom ".fitters.beta_geo_covar_fitter" "BetaGeoCovarsFitter");
    ("BaseModel", ImportedFrom ".models" "BaseModel");
    ("PredictMixin", ImportedFrom ".models" "PredictMixin");
    ("BetaGeoModel", ImportedFrom ".models.beta_geo_model" "BetaGeoModel");
    ("GammaGammaModel",
     ImportedFrom ".models.gamma_gamma_model" "GammaGammaModel");
    ("__version__", Str "0.1b2");
    ("__all__", Names __all__);
    ("deprecated", Function "deprecated") ].

Definition module_globals : gmap string object := list_to_map bindings.

(** [from <module> import *] for a module that defines [__all__]: every
    listed name is looked up in the module and bound in the importing
    namespace; a listed name the module lacks raises [AttributeError]. *)
Fixpoint import_names (globals : gmap string object) (names : list string)
    (namespace : gmap string object) : string + gmap string object :=
  match names with
  | [] => inr namespace
  | name :: names' =>
      match globals !! name with
      | None => inl name
      | Some value =>
          import_names globals names' (<[name := value]> namespace)
      end
  end.

Definition star_import (namespace : gmap string object)
  : string + gmap string object :=
  import_names module_globals __all__ namespace.

Lemma import_names_bound globals names namespace :
  Forall (fun name => is_Some (globals !! name)) names ->
  exists namespace',
    import_names globals names namespace = inr namespace'
    /\ forall name,
         namespace' !! name
         = if bool_decide (name ∈ names) then globals !! name
           else namespace !! name.
Proof.
  intros Hall. revert namespace.
  induction Hall as [|n names [v Hv] _ IH]; intros namespace.
  - exists namespace. split; [reflexivity |]. intros name.
    rewrite bool_decide_eq_false_2 by apply not_elem_of_nil. reflexivity.
  - cbn [import_names]. rewrite Hv.
    destruct (IH (<[n := v]> namespace)) as [ns' [Hns' Hlook]].
    exists ns'. split; [exact Hns' |]. intros name. rewrite Hlook.
    destruct (decide (name ∈ names)) as [Hin | Hnotin].
    + rewrite !bool_decide_eq_true_2; [reflexivity | | exact Hin].
      apply elem_of_cons. right. exact Hin.
    + rewrite (bool_decide_eq_false_2 _ Hnotin).
      destruct (decide (name = n)) as [-> | Hne].
      * rewrite bool_decide_eq_true_2 by apply list_elem_of_here.
        rewrite lookup_insert_eq. symmetry. exact Hv.
      * rewrite bool_decide_eq_false_2.
        -- apply lookup_insert_ne. congruence.
        -- rewrite elem_of_cons. tauto.
Qed.

(** X12: [from btyd import *] never raises: every name listed in [__all__]
    is bound by the module body.  It binds exactly the listed names, to the
    module's objects, and leaves every other name of the importing namespace
    alone; [BaseFitter], [BaseModel] and [PredictMixin], which the body
    imports, are not among them. *)
Theorem star_import_exports (namespace : gmap string object) :
  exists namespace',
    star_import namespace = inr namespace'
    /\ (forall name,
          namespace' !! name
          = if bool_decide (name ∈ __all__) then module_globals !! name
            else namespace !! name)
    /\ Forall (fun name => namespace' !! name = namespace !! name)
         ["BaseFitter"; "BaseModel"; "PredictMixin"; "deprecated";
          "warnings"].
Proof.
  destruct (import_names_bound module_globals __all__ namespace)
    as [ns' [Hns' Hlook]].
  { unfold __all__. repeat constructor; vm_compute; eauto. }
  exists ns'. split; [exact Hns' |]. split; [exact Hlook |].
  repeat constructor; rewrite Hlook; reflexivity.
Qed.

End Importing.

(** ** The inputs of the probability-bounds tests *)

Module TestInputs.

Local Open Scope Z_scope.

(** [range(start, stop, step)] for a positive step, as the loops of the
    tests use it; [np.arange(start, stop, 10.0)] runs through the same
    numbers. *)
Definition py_range (start stop : Z) (step : positive) : list Z :=
  map (fun i => start + Z.of_nat i * Zpos step)
    (seq 0 (Z.to_nat ((stop - start + Zpos step - 1) / Zpos step))).

(** Lines 687 to 690 (and 495 to 502, 970 to 977): the triples
    [(frequency, recency, T)] at which [conditional_probability_alive] is
    checked to lie between 0 and 1. *)
Definition alive_test_triples : list (Z * Z * Z) :=
  flat_map (fun i =>
    flat_map (fun j =>
      map (fun k => (i, j, k)) (py_range j 100 10))
      (py_range 0 100 10))
    (py_range 0 100 10).

Lemma ceil_div_gt (m i : Z) (s : positive) :
  i < (m + Zpos s - 1) / Zpos s <-> i * Zpos s < m.
Proof.
  split; intros H.
  - destruct (Z_lt_le_dec (i * Zpos s) m) as [Hlt | Hge]; [exact Hlt |].
    exfalso.
    assert ((m + Zpos s - 1) / Zpos s < i + 1)
      by (apply Z.div_lt_upper_bound; lia).
    lia.
  - assert (i + 1 <= (m + Zpos s - 1) / Zpos s)
      by (apply Z.div_le_lower_bound; lia).
    lia.
Qed.

Lemma in_py_range (x start stop : Z) (step : positive) :
  In x (py_range start stop step)
  <-> start <= x < stop /\ (Zpos step | x - start).
Proof.
  unfold py_range. rewrite in_map_iff. split.
  - intros [i [<- Hi]]. apply in_seq in Hi.
    assert (Hlt : Z.of_nat i < (stop - start + Zpos step - 1) / Zpos step)
      by lia.
    apply ceil_div_gt in Hlt. split; [lia |].
    exists (Z.of_nat i). lia.
  - intros [[Hlo Hhi] [q Hq]].
    assert (Hq0 : 0 <= q) by nia.
    exists (Z.to_nat q). split; [lia |].
    apply in_seq. split; [lia |]. simpl.
    assert (Hlt : q < (stop - start + Zpos step - 1) / Zpos step)
      by (apply ceil_div_gt; lia).
    lia.
Qed.

(** X13: the loops of [test_conditional_probability_alive_is_between_0_and_1]
    visit exactly the triples of multiples of ten with
    [0 <= frequency < 100] and [0 <= recency <= T < 100]: no visited triple
    has [T < recency], and the boundary [T = recency] is visited for every
    recency. *)
Theorem alive_test_triples_spec (i j k : Z) :
  In (i, j, k) alive_test_triples
  <-> (10 | i) /\ (10 | j) /\ (10 | k)
      /\ (0 <= i < 100) /\ (0 <= j <= k) /\ k < 100.
Proof.
  unfold alive_test_triples. rewrite in_flat_map. split.
  - intros [i' [Hi Hin]]. apply in_flat_map in Hin as [j' [Hj Hin]].
    apply in_map_iff in Hin as [k' [[= -> -> ->] Hk]].
    apply in_py_range in Hi as [Hi [qi Hqi]].
    apply in_py_range in Hj as [Hj [qj Hqj]].
    apply in_py_range in Hk as [Hk [qk Hqk]].
    repeat split; try lia.
    + exists qi. lia.
    + exists qj. lia.
    + exists (qk + qj). lia.
  - intros [[qi Hqi] [[qj Hqj] [[qk Hqk] [Hi [Hjk Hk]]]]].
    exists i. split.
    + apply in_py_range. split; [lia |]. exists qi. lia.
    + apply in_flat_map. exists j. split.
      * apply in_py_range. split; [lia |]. exists qj. lia.
      * apply in_map_iff. exists k. split; [reflexivity |].
        apply in_py_range. split; [lia |]. exists (qk - qj). lia.
Qed.

End TestInputs.
